(** * Module registry and role/plan-gated sidebar navigation

    A shallow embedding of [modules/registry.ts], of the module manifests
    it collects and of [root/navigation.ts] (the sidebar configuration and
    [getVisibleNav]), with the properties the specification states about
    them. *)

From stdpp Require Import gmap strings list fin_maps.

Local Open Scope string_scope.

(** ** Data model *)

(** [UserRole] and [PlanTier] are unions of string literals in the source
    ([@shared/auth]); at run time their members are plain strings, and the
    truthiness test on [minPlan] is a test on a string. *)
Abbreviation UserRole := string (only parsing).
Abbreviation PlanTier := string (only parsing).

(** [ModuleManifest] ([@shared/types/module-manifest.ts]), with the fields
    the manifests under [modules/] set. Fields marked optional there are
    options here ([None] is JavaScript's [undefined]). No function below
    reads [routes]; it is kept as the name of the imported route table. *)
Record ModuleManifest := {
  name : string;
  routes : string;
  allowedRoles : option (list UserRole);
  minPlan : option PlanTier;
  public : option bool
}.

(** [NavItem] of [root/navigation.ts]. *)
Record NavItem := {
  to : string;
  label : string;
  module : string
}.

#[global] Instance ModuleManifest_eq_dec : EqDecision ModuleManifest.
Proof. solve_decision. Defined.

#[global] Instance NavItem_eq_dec : EqDecision NavItem.
Proof. solve_decision. Defined.

(** ** JavaScript values and effects *)

(** ToBoolean on the types of values the source tests in a condition. *)
Class Truthy (A : Type) := truthy : A → bool.

#[global] Instance truthy_bool : Truthy bool := λ b, b.
#[global] Instance truthy_number : Truthy nat := λ n, negb (n =? 0)%nat.
#[global] Instance truthy_string : Truthy string :=
  λ s, negb (String.eqb s EmptyString).
#[global] Instance truthy_object : Truthy ModuleManifest := λ _, true.
#[global] Instance truthy_optional {A} `{Truthy A} : Truthy (option A) :=
  λ o, match o with Some a => truthy a | None => false end.

(** The module-level state of [registry.ts] and [navigation.ts]: the two
    configuration arrays and the [Map] built from the registry when the
    navigation module is loaded. *)
Record Store := {
  st_sidebarNav : list NavItem;
  st_modules : list ModuleManifest;
  st_moduleMap : gmap string ModuleManifest
}.

Inductive JsError := TypeError.

Inductive Completion (A : Type) :=
  | Normal (a : A)
  | Thrown (e : JsError).
Arguments Normal {A} a.
Arguments Thrown {A} e.

(** A computation runs on a store, hands on the store it leaves, and
    completes normally or by throwing. *)
Definition JS (A : Type) : Type := Store → Completion A * Store.

Definition ret {A} (a : A) : JS A := λ σ, (Normal a, σ).

Definition bind {A B} (c : JS A) (k : A → JS B) : JS B :=
  λ σ, match c σ with
       | (Normal a, σ') => k a σ'
       | (Thrown e, σ') => (Thrown e, σ')
       end.

Notation "'let*' x ':=' c 'in' k" := (bind c (λ x, k))
  (at level 10, x name, c at level 100, k at level 200,
   format "'[v' 'let*'  x  :=  c  'in'  '/' k ']'").

Definition throw {A} (e : JsError) : JS A := λ σ, (Thrown e, σ).

(** Reading a module-level constant. *)
Definition read {A} (f : Store → A) : JS A := λ σ, (Normal (f σ), σ).

(** [o.f]: property access throws a [TypeError] on [undefined]. *)
Definition prop {A B} (f : A → B) (o : option A) : JS B :=
  match o with
  | Some a => ret (f a)
  | None => throw TypeError
  end.

(** [map.get(key)] on a module-level [Map]: [undefined] for a key the map
    does not hold, never an exception. *)
Definition Map_get {V} (map : Store → gmap string V) (key : string)
    : JS (option V) :=
  read (λ σ, map σ !! key).

(** [new Map(entries)]: entries are set from left to right, so of two
    entries with one key the later one is kept. *)
Definition Map_new {V} (entries : list (string * V)) : gmap string V :=
  foldl (λ m kv, <[kv.1 := kv.2]> m) ∅ entries.

(** [array.filter(cb)]: the callback runs on every element in order; an
    exception it throws ends the call. The result is a new array. *)
Fixpoint Array_filter {A} (cb : A → JS bool) (l : list A) : JS (list A) :=
  match l with
  | [] => ret []
  | x :: l' =>
      let* keep := cb x in
      let* rest := Array_filter cb l' in
      ret (if keep then x :: rest else rest)
  end.

(** ** [modules/registry.ts] *)

Section Registry.
Variable modules : list ModuleManifest.

(** [modules.filter((m) => m.public)] *)
Definition publicModules : list ModuleManifest :=
  filter (λ m, truthy (public m)) modules.

(** [modules.filter((m) => !m.public)] *)
Definition protectedModules : list ModuleManifest :=
  filter (λ m, negb (truthy (public m))) modules.

(** [new Map(modules.map((m) => [m.name, m]))] of [navigation.ts] *)
Definition moduleMap : gmap string ModuleManifest :=
  Map_new ((λ m, (name m, m)) <$> modules).
End Registry.

(** ** [root/navigation.ts] *)

(** Loading the two modules with the given array literals. *)
Definition load (sidebarNav : list NavItem) (modules : list ModuleManifest)
    : Store :=
  {| st_sidebarNav := sidebarNav;
     st_modules := modules;
     st_moduleMap := moduleMap modules |}.

Section GetVisibleNav.
Variable hasRole : list UserRole → bool.
Variable hasPlan : PlanTier → bool.

(** The callback given to [sidebarNav.filter]. The right operand of each
    [&&] is evaluated only when the left one is truthy, which is when the
    optional field holds a value; [default] is never reached with
    [None]. *)
Definition navFilter (item : NavItem) : JS bool :=
  let* manifest := Map_get st_moduleMap (module item) in
  if negb (truthy manifest) then ret false else
  let* roles := prop allowedRoles manifest in
  if truthy (length <$> roles) && negb (hasRole (default [] roles))
  then ret false else
  let* plan := prop minPlan manifest in
  if truthy plan && negb (hasPlan (default EmptyString plan))
  then ret false else
  ret true.

Definition getVisibleNav : JS (list NavItem) :=
  let* nav := read st_sidebarNav in
  Array_filter navFilter nav.
End GetVisibleNav.

(** ** The repository's configuration *)

(** Modelled from the spec: [modules/auth/index.ts], which exports
    [authModule], is not among the sources. The README describes
    [modules/auth] as the public auth flows (login, register, reset), and
    the manifest template gives auth as its example of a public module,
    one that sets [public: true] and renders outside the shell; like every
    manifest present, it is named after its folder and carries that
    folder's route table. No role or plan gate is modelled for it. *)
Definition authModule : ModuleManifest :=
  {| name := "auth";
     routes := "authRoutes";
     allowedRoles := None;
     minPlan := None;
     public := Some true |}.

Definition dashboardModule : ModuleManifest :=
  {| name := "dashboard";
     routes := "dashboardRoutes";
     allowedRoles := Some ["admin"; "editor"; "viewer"];
     minPlan := None;
     public := None |}.

Definition productsModule : ModuleManifest :=
  {| name := "products";
     routes := "productRoutes";
     allowedRoles := Some ["admin"; "editor"];
     minPlan := Some "starter";
     public := None |}.

Definition usersModule : ModuleManifest :=
  {| name := "users";
     routes := "userRoutes";
     allowedRoles := Some ["admin"];
     minPlan := Some "pro";
     public := None |}.

Definition settingsModule : ModuleManifest :=
  {| name := "settings";
     routes := "settingsRoutes";
     allowedRoles := Some ["admin"; "editor"];
     minPlan := None;
     public := None |}.

Definition modules : list ModuleManifest :=
  [authModule; dashboardModule; productsModule; usersModule; settingsModule].

Definition sidebarNav : list NavItem :=
  [ {| module := "dashboard"; to := "/dashboard"; label := "Dashboard" |};
    {| module := "products";  to := "/products";  label := "Products" |};
    {| module := "users";     to := "/users";     label := "Users" |};
    {| module := "settings";  to := "/settings";  label := "Settings" |} ].

(** The store once [registry.ts] and [navigation.ts] are loaded. *)
Definition app : Store := load sidebarNav modules.

(** [modules/_template/index.ts]: the scaffold manifest, as a function of
    the module name that replaces the [__name__] placeholder when the
    template folder is copied. The commented-out fields ([minPlan],
    [public]) are absent. *)
Definition __name__Module (__name__ : string) : ModuleManifest :=
  {| name := __name__;
     routes := __name__ +:+ "Routes";
     allowedRoles := Some ["admin"; "editor"];
     minPlan := None;
     public := None |}.

(** ** What the filter callback decides *)

Section Derivation.
Variable hasRole : list UserRole → bool.
Variable hasPlan : PlanTier → bool.

(** The value [navFilter] completes with, as a function of the map: the
    two gates on a manifest that was found, nothing kept otherwise
    ([navFilter_run] below). *)
Definition passes (m : ModuleManifest) : bool :=
  negb (truthy (length <$> allowedRoles m)
        && negb (hasRole (default [] (allowedRoles m))))
  && negb (truthy (minPlan m)
           && negb (hasPlan (default EmptyString (minPlan m)))).

Definition keeps (map : gmap string ModuleManifest) (item : NavItem)
    : bool :=
  match map !! module item with
  | Some m => passes m
  | None => false
  end.

(** The access-control derivation in the specification's words, to be
    compared with the code: the manifest's [allowedRoles], when present and
    non-empty, satisfy [hasRole]; its [minPlan], when present, satisfies
    [hasPlan]. *)
Definition spec_rolesGranted (m : ModuleManifest) : Prop :=
  ∀ roles, allowedRoles m = Some roles → roles ≠ [] → hasRole roles.

Definition spec_planGranted (m : ModuleManifest) : Prop :=
  ∀ plan, minPlan m = Some plan → hasPlan plan.

(** The plan gate as the code tests it: the empty string is falsy, so a
    [minPlan] holding it is not checked. *)
Definition planChecked (m : ModuleManifest) : Prop :=
  ∀ plan, minPlan m = Some plan → plan ≠ EmptyString → hasPlan plan.
End Derivation.

(** ** Running the computations *)

Lemma bind_run {A B} (c : JS A) (k : A → JS B) σ a σ' :
  c σ = (Normal a, σ') → bind c k σ = k a σ'.
Proof. intros Hc. unfold bind. by rewrite Hc. Qed.

Lemma Array_filter_run {A} (cb : A → JS bool) (f : A → bool) σ l :
  (∀ x, cb x σ = (Normal (f x), σ)) →
  Array_filter cb l σ = (Normal (filter (λ x, f x) l), σ).
Proof.
  intros Hcb. induction l as [|x l IH]; [done|].
  cbn [Array_filter].
  rewrite (bind_run _ _ _ _ _ (Hcb x)), (bind_run _ _ _ _ _ IH).
  rewrite filter_cons. unfold ret.
  destruct (f x); by case_decide.
Qed.

Lemma navFilter_run hasRole hasPlan item σ :
  navFilter hasRole hasPlan item σ
  = (Normal (keeps hasRole hasPlan (st_moduleMap σ) item), σ).
Proof.
  unfold navFilter, keeps, passes, bind, Map_get, read, prop, ret.
  destruct (st_moduleMap σ !! module item) as [m|]; [|done]. cbn.
  destruct (truthy _ && negb (hasRole _)); [done|].
  by destruct (truthy _ && negb (hasPlan _)).
Qed.

Lemma getVisibleNav_run hasRole hasPlan σ :
  getVisibleNav hasRole hasPlan σ
  = (Normal (filter (λ item, keeps hasRole hasPlan (st_moduleMap σ) item)
                    (st_sidebarNav σ)), σ).
Proof.
  unfold getVisibleNav, bind, read.
  apply Array_filter_run. intros item. apply navFilter_run.
Qed.

(** ** The map built from the registry *)

Lemma moduleMap_snoc ms m :
  moduleMap (ms ++ [m]) = <[name m := m]> (moduleMap ms).
Proof. unfold moduleMap, Map_new. by rewrite fmap_app, foldl_app. Qed.

Lemma moduleMap_lookup_Some ms key m :
  moduleMap ms !! key = Some m → m ∈ ms ∧ name m = key.
Proof.
  induction ms as [|m' ms IH] using rev_ind; [done|].
  rewrite moduleMap_snoc, lookup_insert. case_decide as Hkey.
  - intros [= ->]. split; [|done]. apply elem_of_app. right. left.
  - intros [Hin Hname]%IH. split; [|done]. apply elem_of_app. by left.
Qed.

Lemma moduleMap_lookup_None ms key :
  moduleMap ms !! key = None ↔ ∀ m, m ∈ ms → name m ≠ key.
Proof.
  induction ms as [|m' ms IH] using rev_ind.
  - split; [|done]. by intros _ m ?%elem_of_nil.
  - rewrite moduleMap_snoc, lookup_insert. case_decide as Hkey.
    + split; [done|]. intros Hall. destruct (Hall m'); [|done].
      apply elem_of_app. right. left.
    + rewrite IH. split.
      * intros Hall m [Hin | ->%list_elem_of_singleton]%elem_of_app;
          auto.
      * intros Hall m Hin. apply Hall, elem_of_app. by left.
Qed.

(** Of several manifests with one name, the map holds the last. *)
Lemma moduleMap_lookup_last ms1 m ms2 :
  (∀ m', m' ∈ ms2 → name m' ≠ name m) →
  moduleMap (ms1 ++ m :: ms2) !! name m = Some m.
Proof.
  induction ms2 as [|m' ms2 IH] using rev_ind; intros Hlater.
  - by rewrite moduleMap_snoc, lookup_insert_eq.
  - rewrite app_comm_cons, app_assoc, moduleMap_snoc, lookup_insert_ne.
    + apply IH. intros m'' Hin. apply Hlater, elem_of_app. by left.
    + apply Hlater, elem_of_app. right. left.
Qed.

Lemma moduleMap_lookup_unique ms m :
  NoDup (name <$> ms) → m ∈ ms → moduleMap ms !! name m = Some m.
Proof.
  intros Hnodup (ms1 & ms2 & ->)%list_elem_of_split.
  apply moduleMap_lookup_last. intros m' Hin Heq.
  rewrite fmap_app, fmap_cons in Hnodup.
  apply NoDup_app in Hnodup as (_ & _ & [Hnotin _]%NoDup_cons).
  apply Hnotin. rewrite <-Heq. by apply list_elem_of_fmap_2.
Qed.

(** ** The gates, in the specification's words *)

Lemma truthy_string_iff (s : string) : truthy s ↔ s ≠ EmptyString.
Proof.
  unfold truthy, truthy_string. rewrite negb_True.
  destruct (String.eqb_spec s EmptyString); naive_solver.
Qed.

Lemma truthy_length_iff {A} (o : option (list A)) :
  truthy (length <$> o) ↔ ∃ l, o = Some l ∧ l ≠ [].
Proof.
  destruct o as [[|x l]|]; cbn; [| |]; split; try done.
  - by intros (l & [= <-] & Hne).
  - intros _. by exists (x :: l).
  - by intros (l & [=] & _).
Qed.

Lemma passes_iff hasRole hasPlan m :
  passes hasRole hasPlan m
  ↔ spec_rolesGranted hasRole m ∧ planChecked hasPlan m.
Proof.
  unfold passes, spec_rolesGranted, planChecked.
  rewrite andb_True, !negb_True, !andb_True, !negb_True.
  rewrite truthy_length_iff.
  f_equiv.
  - split.
    + intros Hgate roles Hroles Hne. destruct (hasRole roles) eqn:Hr; [done|].
      destruct Hgate. split; [by exists roles|]. rewrite Hroles. cbn.
      rewrite Hr. by intros [].
    + intros Hall [(roles & Hroles & Hne) Hdenied]. apply Hdenied.
      rewrite Hroles. cbn. by apply Hall.
  - destruct (minPlan m) as [plan|]; cbn;
      [|split; [by intros _ ? [=] | by intros _ []]].
    change (truthy_string plan) with (truthy plan).
    rewrite truthy_string_iff. split.
    + intros Hgate ? [= <-] Hne. destruct (hasPlan plan); [done|].
      destruct Hgate. split; [done|]. by intros [].
    + intros Hall [Hne Hdenied]. apply Hdenied. by apply Hall.
Qed.

Lemma planChecked_granted hasPlan m :
  minPlan m ≠ Some EmptyString →
  planChecked hasPlan m ↔ spec_planGranted hasPlan m.
Proof.
  intros Hplan. unfold planChecked, spec_planGranted. split; [|naive_solver].
  intros Hall plan Hm. apply Hall; [done|]. by intros ->.
Qed.

(** Over a registry with unique names whose plan tiers are non-empty
    strings, the entries kept are those whose module is registered under a
    manifest that grants both gates. *)
Lemma keeps_derivation hasRole hasPlan ms item :
  NoDup (name <$> ms) →
  (∀ m, m ∈ ms → minPlan m ≠ Some EmptyString) →
  keeps hasRole hasPlan (moduleMap ms) item
  ↔ ∃ m, m ∈ ms ∧ name m = module item
         ∧ spec_rolesGranted hasRole m ∧ spec_planGranted hasPlan m.
Proof.
  intros Hnodup Hplans. unfold keeps. split.
  - destruct (moduleMap ms !! module item) as [m|] eqn:Hget; [|done].
    apply moduleMap_lookup_Some in Hget as [Hin Hname].
    rewrite passes_iff, planChecked_granted by auto. by exists m.
  - intros (m & Hin & Hname & Hroles & Hplan).
    rewrite <-Hname, (moduleMap_lookup_unique ms m) by done.
    apply passes_iff. split; [done|]. by apply planChecked_granted; auto.
Qed.

(** ** The repository's registry *)

Lemma modules_names_NoDup : NoDup (name <$> modules).
Proof. apply (bool_decide_unpack _). by vm_compute. Qed.

Lemma modules_plans_nonempty m : m ∈ modules → minPlan m ≠ Some EmptyString.
Proof.
  unfold modules. rewrite !elem_of_cons, elem_of_nil.
  intros [->|[->|[->|[->|[->|[]]]]]]; done.
Qed.

(** The four manifests present in the sources have pairwise distinct
    names whatever the fifth is, and the registry's names are unique for
    every [auth] manifest named unlike them. *)
Lemma modules_names_NoDup_any_auth (auth : ModuleManifest) :
  name auth ∉ ["dashboard"; "products"; "users"; "settings"] →
  NoDup (name <$> [auth; dashboardModule; productsModule; usersModule;
                   settingsModule]).
Proof.
  intros Hauth. rewrite fmap_cons. apply NoDup_cons. split; [done|].
  apply (bool_decide_unpack _). by vm_compute.
Qed.

(** Replacing the first manifest of a registry leaves every lookup of a
    name that a later manifest carries as it was. *)
Lemma moduleMap_lookup_head a ms key :
  key ∈ name <$> ms → moduleMap (a :: ms) !! key = moduleMap ms !! key.
Proof.
  induction ms as [|m ms IH] using rev_ind; [by intros ?%elem_of_nil|].
  rewrite app_comm_cons, !moduleMap_snoc, !lookup_insert.
  case_decide as Hkey; [done|].
  rewrite fmap_app, elem_of_app. intros [Hin|Hlast]; [by apply IH|].
  by apply list_elem_of_singleton in Hlast.
Qed.

Lemma filter_ext_elem {A} (P Q : A → Prop)
    `{!∀ x, Decision (P x), !∀ x, Decision (Q x)} (l : list A) :
  (∀ x, x ∈ l → P x ↔ Q x) → filter P l = filter Q l.
Proof.
  induction l as [|x l IH]; intros Hext; [done|].
  rewrite !filter_cons, IH by (intros y Hy; apply Hext; by right).
  apply decide_ext, Hext. left.
Qed.

(** What [getVisibleNav] returns on the repository's configuration does
    not depend on how [authModule] is written. *)
Lemma getVisibleNav_any_auth (auth : ModuleManifest) hasRole hasPlan :
  (getVisibleNav hasRole hasPlan (load sidebarNav (auth :: tail modules))).1
  = (getVisibleNav hasRole hasPlan app).1.
Proof.
  rewrite !getVisibleNav_run. cbn [fst]. f_equal.
  cbn [st_moduleMap st_sidebarNav app load].
  apply filter_ext_elem. intros item Hitem.
  assert (module item ∈ name <$> tail modules) as Hin.
  { revert Hitem. unfold sidebarNav. rewrite !elem_of_cons, elem_of_nil.
    intros [->|[->|[->|[->|[]]]]]; apply (bool_decide_unpack _);
      by vm_compute. }
  unfold keeps, modules.
  by rewrite !(moduleMap_lookup_head _ (tail modules)).
Qed.

(** ** Monotonicity of the gates *)

Lemma passes_mono (hasRole hasRole' : list UserRole → bool)
    (hasPlan hasPlan' : PlanTier → bool) m :
  (∀ roles, hasRole roles → hasRole' roles) →
  (∀ plan, hasPlan plan → hasPlan' plan) →
  passes hasRole hasPlan m → passes hasRole' hasPlan' m.
Proof.
  intros Hroles Hplans. rewrite !passes_iff.
  unfold spec_rolesGranted, planChecked. intros [Hr Hp]. split.
  - intros roles Hm Hne. by apply Hroles, Hr.
  - intros plan Hm Hne. by apply Hplans, Hp.
Qed.

Lemma keeps_mono (hasRole hasRole' : list UserRole → bool)
    (hasPlan hasPlan' : PlanTier → bool) map item :
  (∀ roles, hasRole roles → hasRole' roles) →
  (∀ plan, hasPlan plan → hasPlan' plan) →
  keeps hasRole hasPlan map item → keeps hasRole' hasPlan' map item.
Proof.
  intros Hroles Hplans. unfold keeps.
  destruct (map !! module item); [|done]. by apply passes_mono.
Qed.

(** ** The configuration at work *)

Example viewer_sees_dashboard :
  (getVisibleNav (λ roles, bool_decide ("viewer" ∈ roles)) (λ _, true) app).1
  = Normal (take 1 sidebarNav).
Proof. reflexivity. Qed.

Example editor_on_starter :
  (getVisibleNav (λ roles, bool_decide ("editor" ∈ roles))
                 (λ plan, bool_decide (plan = "starter")) app).1
  = Normal (filter (λ item, module item ≠ "users") sidebarNav).
Proof. reflexivity. Qed.

Example admin_on_pro :
  (getVisibleNav (λ roles, bool_decide ("admin" ∈ roles)) (λ _, true) app).1
  = Normal sidebarNav.
Proof. reflexivity. Qed.

Example nobody_sees_nothing :
  (getVisibleNav (λ _, false) (λ _, false) app).1 = Normal [].
Proof. reflexivity. Qed.

(** Without the guard on [manifest], reading a field of a manifest that
    was not found would throw. *)
Example prop_undefined_throws σ :
  prop allowedRoles None σ = (Thrown TypeError, σ).
Proof. reflexivity. Qed.

(** Two manifests under one name: the map answers with the later one. *)
Example moduleMap_later_entry :
  moduleMap [usersModule; dashboardModule;
             {| name := "users"; routes := "userRoutes";
                allowedRoles := None; minPlan := None; public := None |}]
    !! "users"
  = Some {| name := "users"; routes := "userRoutes";
            allowedRoles := None; minPlan := None; public := None |}.
Proof. reflexivity. Qed.

Example public_modules_of_registry :
  publicModules modules = [authModule]
  ∧ protectedModules modules
    = [dashboardModule; productsModule; usersModule; settingsModule].
Proof. split; reflexivity. Qed.

(** ** Properties stated by the specification *)

(** C1. For every pair of predicates, [getVisibleNav] keeps a [sidebarNav]
    entry exactly when the module registry holds a manifest named by the
    entry's [module] field whose [allowedRoles], when present and
    non-empty, satisfy [hasRole], and whose [minPlan], when present,
    satisfies [hasPlan]. *)
Theorem getVisibleNav_access_derivation hasRole hasPlan :
  ∃ visible,
    getVisibleNav hasRole hasPlan app = (Normal visible, app)
    ∧ ∀ item,
        item ∈ visible
        ↔ item ∈ sidebarNav
          ∧ ∃ m, m ∈ modules ∧ name m = module item
                 ∧ spec_rolesGranted hasRole m ∧ spec_planGranted hasPlan m.
Proof.
  eexists. split; [apply getVisibleNav_run|].
  intros item. rewrite list_elem_of_filter.
  cbn [st_moduleMap st_sidebarNav app load].
  rewrite keeps_derivation
    by auto using modules_names_NoDup, modules_plans_nonempty.
  tauto.
Qed.

(** C4. The names in the module registry are pairwise unique: manifests
    at two different positions of [modules] have different names. *)
Theorem modules_names_unique i j m1 m2 :
  modules !! i = Some m1 → modules !! j = Some m2 → i ≠ j →
  name m1 ≠ name m2.
Proof.
  intros Hi Hj Hij Hname. apply Hij.
  apply (proj1 (NoDup_alt _) modules_names_NoDup i j (name m1)).
  - by rewrite list_lookup_fmap, Hi.
  - by rewrite list_lookup_fmap, Hj, Hname.
Qed.

Lemma modules_names_unique_witness :
  name dashboardModule ≠ name settingsModule.
Proof. apply (modules_names_unique 1 4); [reflexivity|reflexivity|lia]. Defined.

(** C2. An entry whose [module] field names no manifest of the registry is
    left out, the call completes normally, and the list returned is the
    one returned for the configuration without that entry: whether any
    other entry is kept does not depend on the dangling one. *)
Theorem getVisibleNav_missing_manifest hasRole hasPlan before item after ms :
  module item ∉ (name <$> ms) →
  ∃ visible,
    getVisibleNav hasRole hasPlan (load (before ++ item :: after) ms)
    = (Normal visible, load (before ++ item :: after) ms)
    ∧ (item ∉ visible)
    ∧ getVisibleNav hasRole hasPlan (load (before ++ after) ms)
      = (Normal visible, load (before ++ after) ms).
Proof.
  intros Hmissing.
  assert (moduleMap ms !! module item = None) as Hget.
  { apply moduleMap_lookup_None. intros m Hin Hname. apply Hmissing.
    rewrite <-Hname. by apply list_elem_of_fmap_2. }
  assert (¬ keeps hasRole hasPlan (moduleMap ms) item) as Hout.
  { unfold keeps. rewrite Hget. by intros []. }
  eexists. split; [apply getVisibleNav_run|].
  rewrite getVisibleNav_run. cbn [st_moduleMap st_sidebarNav load].
  split.
  - rewrite list_elem_of_filter. tauto.
  - by rewrite !filter_app, filter_cons_False.
Qed.

Lemma getVisibleNav_missing_manifest_witness :
  let ghost :=
    {| module := "reports"; to := "/reports"; label := "Reports" |} in
  let everyone : list UserRole → bool := λ _, true in
  let anyPlan : PlanTier → bool := λ _, true in
  (module ghost ∉ (name <$> modules))
  ∧ ∃ visible,
      getVisibleNav everyone anyPlan (load ([] ++ ghost :: sidebarNav) modules)
      = (Normal visible, load ([] ++ ghost :: sidebarNav) modules)
      ∧ (ghost ∉ visible)
      ∧ getVisibleNav everyone anyPlan (load ([] ++ sidebarNav) modules)
        = (Normal visible, load ([] ++ sidebarNav) modules).
Proof.
  intros ghost everyone anyPlan.
  assert (module ghost ∉ (name <$> modules)) as Hmissing
    by (apply (bool_decide_unpack _); vm_compute; exact I).
  split; [exact Hmissing|].
  exact (getVisibleNav_missing_manifest
           everyone anyPlan [] ghost sidebarNav modules Hmissing).
Defined.

(** C3. [getVisibleNav] is total and deterministic: on every store and for
    every pair of predicates it completes normally, and predicates that
    agree on every role list and on every plan tier yield the same list. *)
Theorem getVisibleNav_total_deterministic
    (hasRole hasRole' : list UserRole → bool)
    (hasPlan hasPlan' : PlanTier → bool) σ :
  (∀ roles, hasRole roles = hasRole' roles) →
  (∀ plan, hasPlan plan = hasPlan' plan) →
  ∃ visible,
    getVisibleNav hasRole hasPlan σ = (Normal visible, σ)
    ∧ getVisibleNav hasRole' hasPlan' σ = (Normal visible, σ).
Proof.
  intros Hroles Hplans. eexists. split; [apply getVisibleNav_run|].
  rewrite getVisibleNav_run. do 2 f_equal.
  apply list_filter_iff. intros item. unfold keeps, passes.
  destruct (st_moduleMap σ !! module item) as [m|]; [|done].
  by rewrite Hroles, Hplans.
Qed.

Lemma getVisibleNav_total_deterministic_witness :
  ∃ visible,
    getVisibleNav (λ roles, bool_decide ("editor" ∈ roles))
                  (λ plan, bool_decide (plan = "starter")) app
    = (Normal visible, app)
    ∧ getVisibleNav (λ roles, bool_decide ("editor" ∈ roles))
                    (λ plan, bool_decide (plan = "starter")) app
      = (Normal visible, app).
Proof.
  apply getVisibleNav_total_deterministic; intros; reflexivity.
Defined.

(** C5. What [getVisibleNav] returns is a subsequence of [sidebarNav]:
    entries of [sidebarNav], none added or repeated, in the order they
    have there. *)
Theorem getVisibleNav_sublist hasRole hasPlan σ :
  ∃ visible,
    getVisibleNav hasRole hasPlan σ = (Normal visible, σ)
    ∧ visible `sublist_of` st_sidebarNav σ.
Proof.
  eexists. split; [apply getVisibleNav_run|]. apply sublist_filter.
Qed.

(** C6. [getVisibleNav] leaves the configuration as it found it: the store
    after the call, with its [sidebarNav] array, its registry and the
    manifests held by both the registry and the map, is the store before
    the call. *)
Theorem getVisibleNav_frame hasRole hasPlan σ :
  (getVisibleNav hasRole hasPlan σ).2 = σ.
Proof. by rewrite getVisibleNav_run. Qed.

(** C7. [publicModules] and [protectedModules] partition the registry: a
    manifest of the registry is in [publicModules] exactly when its
    [public] flag is true, in [protectedModules] exactly when the flag is
    false or absent, never in both, and always in one of the two; together
    the two lists hold the manifests of the registry, as many times. *)
Theorem public_protected_partition (ms : list ModuleManifest) :
  (∀ m, m ∈ publicModules ms ↔ m ∈ ms ∧ public m = Some true)
  ∧ (∀ m, m ∈ protectedModules ms
          ↔ m ∈ ms ∧ (public m = Some false ∨ public m = None))
  ∧ (∀ m, ¬ (m ∈ publicModules ms ∧ m ∈ protectedModules ms))
  ∧ (∀ m, m ∈ ms → m ∈ publicModules ms ∨ m ∈ protectedModules ms)
  ∧ publicModules ms ++ protectedModules ms ≡ₚ ms.
Proof.
  assert (∀ m, truthy (public m) ↔ public m = Some true) as Hpub.
  { intros m. by destruct (public m) as [[]|]. }
  assert (∀ m, negb (truthy (public m))
               ↔ public m = Some false ∨ public m = None) as Hprot.
  { intros m. destruct (public m) as [[]|]; cbn.
    - split; [done|]. by intros [|].
    - split; [|done]. intros _. by left.
    - split; [|done]. intros _. by right. }
  unfold publicModules, protectedModules.
  split; [|split; [|split; [|split]]].
  - intros m. rewrite list_elem_of_filter, Hpub. tauto.
  - intros m. rewrite list_elem_of_filter, Hprot. tauto.
  - intros m [[Hp _]%list_elem_of_filter [Hn _]%list_elem_of_filter].
    apply negb_True in Hn. by apply Hn.
  - intros m Hin. rewrite !list_elem_of_filter.
    destruct (truthy (public m)); [left|right]; by split.
  - rewrite <-(filter_app_complement (λ m, truthy (public m)) ms) at 3.
    rewrite (list_filter_iff (λ m, negb (truthy (public m)))
                             (λ m, ¬ truthy (public m))); [done|].
    intros m. apply negb_True.
Qed.

Lemma public_protected_partition_witness :
  authModule ∈ publicModules modules
  ∨ authModule ∈ protectedModules modules.
Proof.
  apply (proj1 (proj2 (proj2 (proj2 (public_protected_partition modules))))).
  unfold modules. left.
Defined.

(** C8. An empty [allowedRoles] list leaves the module unrestricted: when
    the manifest the map holds for an entry has [allowedRoles] equal to
    the empty list, whether the entry is kept is the same for every
    [hasRole], and is decided by the [minPlan] check alone. *)
Theorem getVisibleNav_empty_roles_unrestricted
    (hasRole hasRole' : list UserRole → bool) (hasPlan : PlanTier → bool)
    σ item m :
  item ∈ st_sidebarNav σ →
  st_moduleMap σ !! module item = Some m →
  allowedRoles m = Some [] →
  ∃ visible visible',
    getVisibleNav hasRole hasPlan σ = (Normal visible, σ)
    ∧ getVisibleNav hasRole' hasPlan σ = (Normal visible', σ)
    ∧ (item ∈ visible ↔ item ∈ visible')
    ∧ (item ∈ visible ↔ planChecked hasPlan m).
Proof.
  intros Hitem Hget Hroles.
  assert (∀ hr : list UserRole → bool,
            keeps hr hasPlan (st_moduleMap σ) item
            ↔ planChecked hasPlan m) as Hgate.
  { intros hr. unfold keeps. rewrite Hget, passes_iff.
    unfold spec_rolesGranted. rewrite Hroles. split; [tauto|].
    intros Hplan. split; [|done]. by intros ? [= <-] []. }
  do 2 eexists. split; [apply getVisibleNav_run|].
  split; [apply getVisibleNav_run|].
  rewrite !list_elem_of_filter, !Hgate. tauto.
Qed.

Lemma getVisibleNav_empty_roles_unrestricted_witness :
  let help := {| module := "help"; to := "/help"; label := "Help" |} in
  let helpModule :=
    {| name := "help"; routes := "helpRoutes"; allowedRoles := Some [];
       minPlan := Some "pro"; public := None |} in
  let σ := load [help] [helpModule] in
  ∃ visible visible',
    getVisibleNav (λ _, false) (λ _, true) σ = (Normal visible, σ)
    ∧ getVisibleNav (λ _, true) (λ _, true) σ = (Normal visible', σ)
    ∧ (help ∈ visible ↔ help ∈ visible')
    ∧ (help ∈ visible ↔ planChecked (λ _, true) helpModule).
Proof.
  intros help helpModule σ.
  apply (getVisibleNav_empty_roles_unrestricted _ _ _ σ help helpModule).
  - left.
  - reflexivity.
  - reflexivity.
Defined.

(** C9. [getVisibleNav] is monotone in the access predicates: when
    [hasRole'] grants every role list [hasRole] grants and [hasPlan']
    every plan tier [hasPlan] grants, every entry returned under
    [hasRole] and [hasPlan] is returned under [hasRole'] and [hasPlan'],
    in the same order. *)
Theorem getVisibleNav_monotone
    (hasRole hasRole' : list UserRole → bool)
    (hasPlan hasPlan' : PlanTier → bool) σ :
  (∀ roles, hasRole roles → hasRole' roles) →
  (∀ plan, hasPlan plan → hasPlan' plan) →
  ∃ visible visible',
    getVisibleNav hasRole hasPlan σ = (Normal visible, σ)
    ∧ getVisibleNav hasRole' hasPlan' σ = (Normal visible', σ)
    ∧ (∀ item, item ∈ visible → item ∈ visible')
    ∧ visible `sublist_of` visible'.
Proof.
  intros Hroles Hplans.
  do 2 eexists. split; [apply getVisibleNav_run|].
  split; [apply getVisibleNav_run|].
  assert (∀ item, keeps hasRole hasPlan (st_moduleMap σ) item
                  → keeps hasRole' hasPlan' (st_moduleMap σ) item)
    as Hmono by (intros item; by apply keeps_mono).
  split.
  - intros item [Hadm Hin]%list_elem_of_filter.
    apply list_elem_of_filter. auto.
  - rewrite <-(list_filter_filter_l _
                 (λ item, keeps hasRole' hasPlan' (st_moduleMap σ) item))
      by done.
    apply sublist_filter.
Qed.

Lemma getVisibleNav_monotone_witness :
  ∃ visible visible',
    getVisibleNav (λ _, false) (λ plan, bool_decide (plan = "starter")) app
    = (Normal visible, app)
    ∧ getVisibleNav (λ roles, bool_decide ("admin" ∈ roles)) (λ _, true) app
      = (Normal visible', app)
    ∧ (∀ item, item ∈ visible → item ∈ visible')
    ∧ visible `sublist_of` visible'.
Proof.
  apply getVisibleNav_monotone.
  - intros roles [].
  - intros plan _. exact I.
Defined.

(** ** Further properties of [navigation.ts] *)

(** *** The two gates of the filter callback *)

(** X1. An entry is never returned when the manifest the map holds for it
    lists roles and [hasRole] rejects that list, whatever [hasPlan]
    answers. *)
Theorem getVisibleNav_role_denied hasRole hasPlan σ item m roles :
  st_moduleMap σ !! module item = Some m →
  allowedRoles m = Some roles →
  roles ≠ [] →
  hasRole roles = false →
  ∃ visible,
    getVisibleNav hasRole hasPlan σ = (Normal visible, σ)
    ∧ item ∉ visible.
Proof.
  intros Hget Hroles Hne Hdenied.
  eexists. split; [apply getVisibleNav_run|].
  rewrite list_elem_of_filter. unfold keeps. rewrite Hget, passes_iff.
  intros [[Hgranted _] _]. specialize (Hgranted roles Hroles Hne).
  by rewrite Hdenied in Hgranted.
Qed.

Lemma getVisibleNav_role_denied_witness :
  let users := {| module := "users"; to := "/users"; label := "Users" |} in
  ∃ visible,
    getVisibleNav (λ roles, bool_decide ("editor" ∈ roles)) (λ _, true) app
    = (Normal visible, app)
    ∧ users ∉ visible.
Proof.
  intros users.
  apply (getVisibleNav_role_denied _ _ app users usersModule ["admin"]).
  - reflexivity.
  - reflexivity.
  - discriminate.
  - reflexivity.
Defined.

(** X2. An entry is never returned when the manifest the map holds for it
    names a plan tier and [hasPlan] rejects that tier, whatever [hasRole]
    answers. *)
Theorem getVisibleNav_plan_denied hasRole hasPlan σ item m plan :
  st_moduleMap σ !! module item = Some m →
  minPlan m = Some plan →
  plan ≠ EmptyString →
  hasPlan plan = false →
  ∃ visible,
    getVisibleNav hasRole hasPlan σ = (Normal visible, σ)
    ∧ item ∉ visible.
Proof.
  intros Hget Hplan Hne Hdenied.
  eexists. split; [apply getVisibleNav_run|].
  rewrite list_elem_of_filter. unfold keeps. rewrite Hget, passes_iff.
  intros [[_ Hchecked] _]. specialize (Hchecked plan Hplan Hne).
  by rewrite Hdenied in Hchecked.
Qed.

Lemma getVisibleNav_plan_denied_witness :
  let users := {| module := "users"; to := "/users"; label := "Users" |} in
  ∃ visible,
    getVisibleNav (λ _, true) (λ plan, bool_decide (plan = "starter")) app
    = (Normal visible, app)
    ∧ users ∉ visible.
Proof.
  intros users.
  apply (getVisibleNav_plan_denied _ _ app users usersModule "pro").
  - reflexivity.
  - reflexivity.
  - discriminate.
  - reflexivity.
Defined.

(** X3. A manifest that omits [allowedRoles] is unrestricted by role:
    whether its entry is returned is the same for every [hasRole], and is
    decided by the plan check alone. *)
Theorem getVisibleNav_roles_omitted
    (hasRole hasRole' : list UserRole → bool) (hasPlan : PlanTier → bool)
    σ item m :
  item ∈ st_sidebarNav σ →
  st_moduleMap σ !! module item = Some m →
  allowedRoles m = None →
  ∃ visible visible',
    getVisibleNav hasRole hasPlan σ = (Normal visible, σ)
    ∧ getVisibleNav hasRole' hasPlan σ = (Normal visible', σ)
    ∧ (item ∈ visible ↔ item ∈ visible')
    ∧ (item ∈ visible ↔ planChecked hasPlan m).
Proof.
  intros Hitem Hget Hroles.
  assert (∀ hr : list UserRole → bool,
            keeps hr hasPlan (st_moduleMap σ) item
            ↔ planChecked hasPlan m) as Hgate.
  { intros hr. unfold keeps. rewrite Hget, passes_iff.
    unfold spec_rolesGranted. rewrite Hroles. split; [tauto|].
    intros Hplan. split; [|done]. by intros ? [=]. }
  do 2 eexists. split; [apply getVisibleNav_run|].
  split; [apply getVisibleNav_run|].
  rewrite !list_elem_of_filter, !Hgate. tauto.
Qed.

Lemma getVisibleNav_roles_omitted_witness :
  let billing :=
    {| module := "billing"; to := "/billing"; label := "Billing" |} in
  let billingModule :=
    {| name := "billing"; routes := "billingRoutes"; allowedRoles := None;
       minPlan := Some "pro"; public := None |} in
  let σ := load [billing] [billingModule] in
  ∃ visible visible',
    getVisibleNav (λ _, false) (λ _, false) σ = (Normal visible, σ)
    ∧ getVisibleNav (λ _, true) (λ _, false) σ = (Normal visible', σ)
    ∧ (billing ∈ visible ↔ billing ∈ visible')
    ∧ (billing ∈ visible ↔ planChecked (λ _, false) billingModule).
Proof.
  intros billing billingModule σ.
  apply (getVisibleNav_roles_omitted _ _ _ σ billing billingModule).
  - left.
  - reflexivity.
  - reflexivity.
Defined.

(** X4. A manifest that omits [minPlan] is available on every plan:
    whether its entry is returned is the same for every [hasPlan], and is
    decided by the role gate alone. *)
Theorem getVisibleNav_plan_omitted
    (hasRole : list UserRole → bool) (hasPlan hasPlan' : PlanTier → bool)
    σ item m :
  item ∈ st_sidebarNav σ →
  st_moduleMap σ !! module item = Some m →
  minPlan m = None →
  ∃ visible visible',
    getVisibleNav hasRole hasPlan σ = (Normal visible, σ)
    ∧ getVisibleNav hasRole hasPlan' σ = (Normal visible', σ)
    ∧ (item ∈ visible ↔ item ∈ visible')
    ∧ (item ∈ visible ↔ spec_rolesGranted hasRole m).
Proof.
  intros Hitem Hget Hplan.
  assert (∀ hp : PlanTier → bool,
            keeps hasRole hp (st_moduleMap σ) item
            ↔ spec_rolesGranted hasRole m) as Hgate.
  { intros hp. unfold keeps. rewrite Hget, passes_iff.
    unfold planChecked. rewrite Hplan. split; [tauto|].
    intros Hroles. split; [done|]. by intros ? [=]. }
  do 2 eexists. split; [apply getVisibleNav_run|].
  split; [apply getVisibleNav_run|].
  rewrite !list_elem_of_filter, !Hgate. tauto.
Qed.

Lemma getVisibleNav_plan_omitted_witness :
  let settings :=
    {| module := "settings"; to := "/settings"; label := "Settings" |} in
  ∃ visible visible',
    getVisibleNav (λ roles, bool_decide ("editor" ∈ roles)) (λ _, false) app
    = (Normal visible, app)
    ∧ getVisibleNav (λ roles, bool_decide ("editor" ∈ roles)) (λ _, true) app
      = (Normal visible', app)
    ∧ (settings ∈ visible ↔ settings ∈ visible')
    ∧ (settings ∈ visible
       ↔ spec_rolesGranted (λ roles, bool_decide ("editor" ∈ roles))
           settingsModule).
Proof.
  intros settings.
  apply (getVisibleNav_plan_omitted _ _ _ app settings settingsModule).
  - unfold app, load, sidebarNav. cbn. do 3 right. left.
  - reflexivity.
  - reflexivity.
Defined.

(** *** More on the map built from the registry *)

Lemma moduleMap_nil : moduleMap [] = ∅.
Proof. reflexivity. Qed.

(** A manifest is invisible to the lookup of every other name. *)
Lemma moduleMap_lookup_skip ms1 m ms2 key :
  key ≠ name m →
  moduleMap (ms1 ++ m :: ms2) !! key = moduleMap (ms1 ++ ms2) !! key.
Proof.
  intros Hkey. induction ms2 as [|m' ms2 IH] using rev_ind.
  - by rewrite moduleMap_snoc, lookup_insert_ne, app_nil_r.
  - rewrite app_comm_cons, !app_assoc, !moduleMap_snoc, !lookup_insert.
    by case_decide.
Qed.

(** Rewriting the manifests without touching their names rewrites the
    values of the map. *)
Lemma moduleMap_fmap (g : ModuleManifest → ModuleManifest) ms :
  (∀ m, name (g m) = name m) →
  moduleMap (g <$> ms) = g <$> moduleMap ms.
Proof.
  intros Hname. induction ms as [|m ms IH] using rev_ind.
  - by rewrite fmap_nil, moduleMap_nil, fmap_empty.
  - by rewrite fmap_app, fmap_cons, fmap_nil, !moduleMap_snoc, fmap_insert,
      IH, Hname.
Qed.

Lemma moduleMap_dom ms :
  dom (moduleMap ms) =@{gset string} list_to_set (name <$> ms).
Proof.
  induction ms as [|m ms IH] using rev_ind; [done|].
  rewrite moduleMap_snoc, dom_insert_L, IH, fmap_app. cbn.
  by rewrite list_to_set_snoc_L, (comm_L (∪)).
Qed.

Lemma size_list_to_set_le (l : list string) :
  (size (list_to_set l : gset string) ≤ length l)%nat.
Proof.
  induction l as [|x l IH]; [done|].
  rewrite list_to_set_cons, size_union_alt, size_singleton. cbn.
  assert (size (list_to_set l ∖ {[x]} : gset string)
          ≤ size (list_to_set l : gset string))%nat
    by (apply subseteq_size, subseteq_difference_l; done).
  lia.
Qed.

Lemma size_list_to_set_NoDup (l : list string) :
  size (list_to_set l : gset string) = length l ↔ NoDup l.
Proof.
  split; [|apply size_list_to_set].
  induction l as [|x l IH]; [constructor|].
  rewrite list_to_set_cons. cbn. intros Hsize.
  pose proof (size_list_to_set_le l) as Hle.
  destruct (decide (x ∈ l)) as [Hin|Hnotin].
  - rewrite subseteq_union_1_L in Hsize by set_solver. lia.
  - rewrite size_union, size_singleton in Hsize by set_solver.
    constructor; [done|]. apply IH. lia.
Qed.

(** X5. With predicates that grant everything, the entries returned are
    those whose module is registered. *)
Theorem getVisibleNav_all_granted nav ms :
  ∃ visible,
    getVisibleNav (λ _, true) (λ _, true) (load nav ms)
    = (Normal visible, load nav ms)
    ∧ visible = filter (λ item, module item ∈ name <$> ms) nav.
Proof.
  eexists. split; [apply getVisibleNav_run|].
  cbn [st_moduleMap st_sidebarNav load].
  apply list_filter_iff. intros item. unfold keeps.
  destruct (moduleMap ms !! module item) as [m|] eqn:Hget.
  - apply moduleMap_lookup_Some in Hget as [Hin <-].
    split; [intros _; by apply list_elem_of_fmap_2|intros _].
    unfold passes. by rewrite !andb_false_r.
  - split; [done|]. intros (m & Hname & Hin)%list_elem_of_fmap.
    by eapply (proj1 (moduleMap_lookup_None ms (module item))).
Qed.

(** X6. With an empty registry no entry is returned, whatever the
    predicates and the sidebar configuration. *)
Theorem getVisibleNav_empty_registry hasRole hasPlan nav :
  getVisibleNav hasRole hasPlan (load nav []) = (Normal [], load nav []).
Proof.
  rewrite getVisibleNav_run. do 2 f_equal.
  cbn [st_moduleMap st_sidebarNav load].
  induction nav as [|item nav IH]; [done|].
  rewrite filter_cons_False; [done|].
  unfold keeps. rewrite moduleMap_nil, lookup_empty. by intros [].
Qed.

(** X7. When several manifests of the registry carry one name, the last
    of them decides: an entry naming it is returned exactly when that
    manifest's gates pass, whatever the earlier ones say. *)
Theorem getVisibleNav_duplicate_name hasRole hasPlan nav ms1 m ms2 item :
  (∀ m', m' ∈ ms2 → name m' ≠ name m) →
  module item = name m →
  item ∈ nav →
  ∃ visible,
    getVisibleNav hasRole hasPlan (load nav (ms1 ++ m :: ms2))
    = (Normal visible, load nav (ms1 ++ m :: ms2))
    ∧ (item ∈ visible
       ↔ spec_rolesGranted hasRole m ∧ planChecked hasPlan m).
Proof.
  intros Hlast Hname Hin.
  eexists. split; [apply getVisibleNav_run|].
  cbn [st_moduleMap st_sidebarNav load].
  rewrite list_elem_of_filter. unfold keeps.
  rewrite Hname, moduleMap_lookup_last, passes_iff by done. tauto.
Qed.

Lemma getVisibleNav_duplicate_name_witness :
  let users := {| module := "users"; to := "/users"; label := "Users" |} in
  let openUsers :=
    {| name := "users"; routes := "userRoutes"; allowedRoles := None;
       minPlan := None; public := None |} in
  ∃ visible,
    getVisibleNav (λ _, false) (λ _, false)
      (load [users] ([usersModule] ++ openUsers :: []))
    = (Normal visible, load [users] ([usersModule] ++ openUsers :: []))
    ∧ (users ∈ visible
       ↔ spec_rolesGranted (λ _, false) openUsers
         ∧ planChecked (λ _, false) openUsers).
Proof.
  intros users openUsers.
  apply (getVisibleNav_duplicate_name _ _ [users] [usersModule] openUsers []).
  - intros m' Hin. by apply elem_of_nil in Hin.
  - reflexivity.
  - left.
Defined.

(** X8. Every entry is decided on its own: the list returned for a
    sidebar configuration in two parts is the list returned for the first
    part followed by the list returned for the second. *)
Theorem getVisibleNav_app hasRole hasPlan nav1 nav2 ms :
  ∃ visible1 visible2,
    getVisibleNav hasRole hasPlan (load nav1 ms)
    = (Normal visible1, load nav1 ms)
    ∧ getVisibleNav hasRole hasPlan (load nav2 ms)
      = (Normal visible2, load nav2 ms)
    ∧ getVisibleNav hasRole hasPlan (load (nav1 ++ nav2) ms)
      = (Normal (visible1 ++ visible2)%list, load (nav1 ++ nav2) ms).
Proof.
  do 2 eexists. split; [apply getVisibleNav_run|].
  split; [apply getVisibleNav_run|].
  rewrite getVisibleNav_run. cbn [st_moduleMap st_sidebarNav load].
  by rewrite filter_app.
Qed.

(** X9. Registering a manifest, at any position of the registry, changes
    nothing for the entries of other modules: when no entry names the new
    manifest, the list returned is the one returned without it. *)
Theorem getVisibleNav_register_other hasRole hasPlan nav ms1 m ms2 :
  (∀ item, item ∈ nav → module item ≠ name m) →
  ∃ visible,
    getVisibleNav hasRole hasPlan (load nav (ms1 ++ ms2))
    = (Normal visible, load nav (ms1 ++ ms2))
    ∧ getVisibleNav hasRole hasPlan (load nav (ms1 ++ m :: ms2))
      = (Normal visible, load nav (ms1 ++ m :: ms2)).
Proof.
  intros Hother. eexists. split; [apply getVisibleNav_run|].
  rewrite getVisibleNav_run. cbn [st_moduleMap st_sidebarNav load].
  do 2 f_equal. apply filter_ext_elem. intros item Hin.
  unfold keeps. by rewrite moduleMap_lookup_skip by auto.
Qed.

Lemma getVisibleNav_register_other_witness :
  ∃ visible,
    getVisibleNav (λ _, true) (λ _, true) (load sidebarNav (modules ++ []))
    = (Normal visible, load sidebarNav (modules ++ []))
    ∧ getVisibleNav (λ _, true) (λ _, true)
        (load sidebarNav (modules ++ __name__Module "orders" :: []))
      = (Normal visible,
         load sidebarNav (modules ++ __name__Module "orders" :: [])).
Proof.
  apply getVisibleNav_register_other.
  intros item. unfold sidebarNav. rewrite !elem_of_cons, elem_of_nil.
  intros [->|[->|[->|[->|[]]]]]; discriminate.
Defined.

(** X10. The map is built once, when [navigation.ts] is loaded: manifests
    pushed to the [modules] array afterwards are not consulted, so an
    entry naming only such a manifest is not returned, and the list is
    the one returned before the push. *)
Theorem getVisibleNav_late_registration hasRole hasPlan nav ms late item :
  module item ∉ (name <$> ms) →
  let σ := {| st_sidebarNav := nav;
              st_modules := ms ++ late;
              st_moduleMap := moduleMap ms |} in
  ∃ visible,
    getVisibleNav hasRole hasPlan σ = (Normal visible, σ)
    ∧ (item ∉ visible)
    ∧ getVisibleNav hasRole hasPlan (load nav ms)
      = (Normal visible, load nav ms).
Proof.
  intros Hmissing σ. eexists. split; [apply getVisibleNav_run|].
  split; [|by rewrite getVisibleNav_run].
  rewrite list_elem_of_filter. unfold keeps. cbn [st_moduleMap σ].
  rewrite (proj2 (moduleMap_lookup_None ms (module item))).
  - by intros [[] _].
  - intros m Hin Hname. apply Hmissing. rewrite <-Hname.
    by apply list_elem_of_fmap_2.
Qed.

Lemma getVisibleNav_late_registration_witness :
  let orders := {| module := "orders"; to := "/orders"; label := "Orders" |} in
  let σ := {| st_sidebarNav := sidebarNav ++ [orders];
              st_modules := modules ++ [__name__Module "orders"];
              st_moduleMap := moduleMap modules |} in
  ∃ visible,
    getVisibleNav (λ _, true) (λ _, true) σ = (Normal visible, σ)
    ∧ (orders ∉ visible)
    ∧ getVisibleNav (λ _, true) (λ _, true)
        (load (sidebarNav ++ [orders]) modules)
      = (Normal visible, load (sidebarNav ++ [orders]) modules).
Proof.
  intros orders.
  apply (getVisibleNav_late_registration _ _ (sidebarNav ++ [orders]) modules
           [__name__Module "orders"] orders).
  apply (bool_decide_unpack _). vm_compute. exact I.
Defined.

(** X11. Over every configuration whose registry has unique names, the
    entries returned are the entries of [sidebarNav] whose module is
    registered under a manifest whose role gate and plan check pass. *)
Theorem getVisibleNav_derivation hasRole hasPlan nav ms :
  NoDup (name <$> ms) →
  ∃ visible,
    getVisibleNav hasRole hasPlan (load nav ms) = (Normal visible, load nav ms)
    ∧ ∀ item,
        item ∈ visible
        ↔ item ∈ nav
          ∧ ∃ m, m ∈ ms ∧ name m = module item
                 ∧ spec_rolesGranted hasRole m ∧ planChecked hasPlan m.
Proof.
  intros Hnodup. eexists. split; [apply getVisibleNav_run|].
  intros item. cbn [st_moduleMap st_sidebarNav load].
  rewrite list_elem_of_filter. unfold keeps.
  split.
  - intros [Hkeeps Hin]. split; [done|].
    destruct (moduleMap ms !! module item) as [m|] eqn:Hget; [|done].
    apply moduleMap_lookup_Some in Hget as [Hm Hname].
    apply passes_iff in Hkeeps. by exists m.
  - intros [Hin (m & Hm & Hname & Hgates)]. split; [|done].
    rewrite <-Hname, (moduleMap_lookup_unique ms m) by done.
    by apply passes_iff.
Qed.

Lemma getVisibleNav_derivation_witness :
  ∃ visible,
    getVisibleNav (λ _, false) (λ _, true) (load sidebarNav modules)
    = (Normal visible, load sidebarNav modules)
    ∧ ∀ item,
        item ∈ visible
        ↔ item ∈ sidebarNav
          ∧ ∃ m, m ∈ modules ∧ name m = module item
                 ∧ spec_rolesGranted (λ _, false) m
                 ∧ planChecked (λ _, true) m.
Proof.
  apply getVisibleNav_derivation.
  apply (bool_decide_unpack _). vm_compute. exact I.
Defined.

(** X12. Visibility reads a manifest's [name], [allowedRoles] and
    [minPlan] only: rewriting the [routes] and the [public] flag of the
    registry's manifests leaves the list returned as it was. *)
Theorem getVisibleNav_ignores_routes_public hasRole hasPlan nav ms
    (newRoutes : ModuleManifest → string)
    (newPublic : ModuleManifest → option bool) :
  let edit m :=
    {| name := name m; routes := newRoutes m;
       allowedRoles := allowedRoles m; minPlan := minPlan m;
       public := newPublic m |} in
  ∃ visible,
    getVisibleNav hasRole hasPlan (load nav ms) = (Normal visible, load nav ms)
    ∧ getVisibleNav hasRole hasPlan (load nav (edit <$> ms))
      = (Normal visible, load nav (edit <$> ms)).
Proof.
  intros edit. eexists. split; [apply getVisibleNav_run|].
  rewrite getVisibleNav_run. cbn [st_moduleMap st_sidebarNav load].
  do 2 f_equal. apply list_filter_iff. intros item. unfold keeps.
  rewrite moduleMap_fmap, lookup_fmap by done.
  by destruct (moduleMap ms !! module item).
Qed.

(** X13. A module scaffolded from the template and registered last is
    gated by role only: its sidebar entry is returned exactly when
    [hasRole] grants the list admin, editor, on every plan; and the
    manifest is a protected module, not a public one. *)
Theorem getVisibleNav_template hasRole hasPlan nav ms __name__ item :
  module item = __name__ →
  item ∈ nav →
  ∃ visible,
    getVisibleNav hasRole hasPlan (load nav (ms ++ [__name__Module __name__]))
    = (Normal visible, load nav (ms ++ [__name__Module __name__]))
    ∧ (item ∈ visible ↔ hasRole ["admin"; "editor"])
    ∧ __name__Module __name__
      ∈ protectedModules (ms ++ [__name__Module __name__])
    ∧ __name__Module __name__
      ∉ publicModules (ms ++ [__name__Module __name__]).
Proof.
  intros Hname Hin. eexists. split; [apply getVisibleNav_run|].
  cbn [st_moduleMap st_sidebarNav load]. split; [|split].
  - rewrite list_elem_of_filter. unfold keeps.
    rewrite moduleMap_snoc, Hname, lookup_insert_eq.
    unfold passes. cbn. rewrite andb_true_r, negb_involutive. tauto.
  - apply list_elem_of_filter. split; [done|].
    apply elem_of_app. right. left.
  - by intros [[] _]%list_elem_of_filter.
Qed.

Lemma getVisibleNav_template_witness :
  let orders := {| module := "orders"; to := "/orders"; label := "Orders" |} in
  let hasRole : list UserRole → bool :=
    λ roles, bool_decide ("editor" ∈ roles) in
  let registry := (modules ++ [__name__Module "orders"])%list in
  ∃ visible,
    getVisibleNav hasRole (λ _, false) (load (sidebarNav ++ [orders]) registry)
    = (Normal visible, load (sidebarNav ++ [orders]) registry)
    ∧ (orders ∈ visible ↔ hasRole ["admin"; "editor"])
    ∧ __name__Module "orders" ∈ protectedModules registry
    ∧ __name__Module "orders" ∉ publicModules registry.
Proof.
  intros orders hasRole registry.
  apply (getVisibleNav_template hasRole _ (sidebarNav ++ [orders]) modules
           "orders" orders).
  - reflexivity.
  - apply elem_of_app. right. left.
Defined.

(** X14. Filtering what was returned returns it again: with the returned
    list as the sidebar configuration, [getVisibleNav] returns that list
    whole. *)
Theorem getVisibleNav_idempotent hasRole hasPlan nav ms :
  ∃ visible,
    getVisibleNav hasRole hasPlan (load nav ms) = (Normal visible, load nav ms)
    ∧ getVisibleNav hasRole hasPlan (load visible ms)
      = (Normal visible, load visible ms).
Proof.
  eexists. split; [apply getVisibleNav_run|].
  rewrite getVisibleNav_run. cbn [st_moduleMap st_sidebarNav load].
  do 2 f_equal. rewrite list_filter_filter. apply list_filter_iff. tauto.
Qed.

(** X15. Reordering the entries of [sidebarNav] reorders the entries
    returned and changes nothing else: the lists returned for two
    arrangements of the same entries are arrangements of each other. *)
Theorem getVisibleNav_reorder hasRole hasPlan nav nav' ms :
  nav ≡ₚ nav' →
  ∃ visible visible',
    getVisibleNav hasRole hasPlan (load nav ms) = (Normal visible, load nav ms)
    ∧ getVisibleNav hasRole hasPlan (load nav' ms)
      = (Normal visible', load nav' ms)
    ∧ visible ≡ₚ visible'.
Proof.
  intros Hperm. do 2 eexists. split; [apply getVisibleNav_run|].
  split; [apply getVisibleNav_run|].
  cbn [st_moduleMap st_sidebarNav load]. by rewrite Hperm.
Qed.

Lemma getVisibleNav_reorder_witness :
  ∃ visible visible',
    getVisibleNav (λ roles, bool_decide ("editor" ∈ roles)) (λ _, true)
      (load sidebarNav modules)
    = (Normal visible, load sidebarNav modules)
    ∧ getVisibleNav (λ roles, bool_decide ("editor" ∈ roles)) (λ _, true)
        (load (reverse sidebarNav) modules)
      = (Normal visible', load (reverse sidebarNav) modules)
    ∧ visible ≡ₚ visible'.
Proof.
  apply getVisibleNav_reorder. symmetry. apply reverse_Permutation.
Defined.

(** *** The map and the registry *)

(** X16. What the map answers for a key: the last manifest of the
    registry carrying that name, and [undefined] exactly when no manifest
    carries it. *)
Theorem moduleMap_lookup_spec ms key :
  match moduleMap ms !! key with
  | Some m =>
      ∃ ms1 ms2,
        ms = (ms1 ++ m :: ms2)%list ∧ name m = key
        ∧ ∀ m', m' ∈ ms2 → name m' ≠ key
  | None => key ∉ (name <$> ms)
  end.
Proof.
  induction ms as [|m0 ms IH] using rev_ind.
  - rewrite moduleMap_nil, lookup_empty. apply not_elem_of_nil.
  - rewrite moduleMap_snoc, lookup_insert. case_decide as Hkey.
    + exists ms, []. split; [done|]. split; [done|].
      by intros m' ?%elem_of_nil.
    + destruct (moduleMap ms !! key) as [m|].
      * destruct IH as (ms1 & ms2 & -> & Hname & Hlater).
        exists ms1, (ms2 ++ [m0])%list. split; [by rewrite <-app_assoc|].
        split; [done|].
        intros m' [Hin | ->%list_elem_of_singleton]%elem_of_app; auto.
      * rewrite fmap_app, elem_of_app.
        intros [Hin | Hin%list_elem_of_singleton]; [by apply IH|].
        by apply Hkey.
Qed.

(** X17. The map never holds more entries than the registry has
    manifests, and holds one entry per manifest exactly when the
    registry's names are unique. *)
Theorem moduleMap_size ms :
  (size (moduleMap ms) ≤ length ms)%nat
  ∧ (size (moduleMap ms) = length ms ↔ NoDup (name <$> ms)).
Proof.
  rewrite <-(size_dom (D:=gset string)), moduleMap_dom.
  rewrite <-(length_fmap name ms).
  split; [apply size_list_to_set_le | apply size_list_to_set_NoDup].
Qed.

(** ** Further properties of [registry.ts] *)

(** X18. Taking the public modules, or the protected ones, twice changes
    nothing, and no public module is protected or protected module
    public. *)
Theorem public_protected_compose (ms : list ModuleManifest) :
  publicModules (publicModules ms) = publicModules ms
  ∧ protectedModules (protectedModules ms) = protectedModules ms
  ∧ protectedModules (publicModules ms) = []
  ∧ publicModules (protectedModules ms) = [].
Proof.
  unfold publicModules, protectedModules.
  rewrite !list_filter_filter. repeat split.
  - apply list_filter_iff. tauto.
  - apply list_filter_iff. tauto.
  - induction ms as [|m ms IH]; [done|].
    rewrite filter_cons_False; [done|].
    intros [Hn Hp]. apply negb_True in Hn. by apply Hn.
  - induction ms as [|m ms IH]; [done|].
    rewrite filter_cons_False; [done|].
    intros [Hp Hn]. apply negb_True in Hn. by apply Hn.
Qed.

(** X19. Both lists keep the order of the registry, and a manifest
    registered last comes last in exactly one of them: in
    [publicModules] when its [public] flag is true, in [protectedModules]
    otherwise, the other list being as before. *)
Theorem public_protected_register (ms : list ModuleManifest) m :
  publicModules ms `sublist_of` ms
  ∧ protectedModules ms `sublist_of` ms
  ∧ (publicModules (ms ++ [m]), protectedModules (ms ++ [m]))
    = if truthy (public m)
      then ((publicModules ms ++ [m])%list, protectedModules ms)
      else (publicModules ms, (protectedModules ms ++ [m])%list).
Proof.
  unfold publicModules, protectedModules.
  split; [apply sublist_filter|]. split; [apply sublist_filter|].
  rewrite !filter_app, !filter_cons, !filter_nil.
  destruct (truthy (public m)); cbn; by rewrite app_nil_r.
Qed.
